(** * Xit: the constants header [Xit/XTConstants.h]

    The header declares three C enumerations ([XTRefType],
    [XTSideBarRootItems], [XTError]) and two global string pointers
    ([XTErrorDomainXit], [XTErrorDomainGit]).  It contains no function.

    The enumerations are embedded twice, and the two views are tied together:
    - as the declaration the header writes, a list of enumerators each with an
      optional [= constant], given values by the rule of C (6.7.2.2): an
      enumerator with [=] has that value, the first one without has 0, every
      other one has the value of the previous enumerator plus 1;
    - as an inductive type with one constructor per enumerator, whose ordinal
      is looked up in the values computed from the declaration. *)

From Stdlib Require Import ZArith.
From stdpp Require Import base option list list_numbers sorting finite strings.

Local Open Scope Z_scope.

(** ** Enumeration declarations of C and the values they define *)

Module CEnum.

(** One enumerator as written between the braces: [name] or [name = k]. *)
Record enumerator : Type := Enumerator {
  e_name : string;
  e_init : option Z
}.

(** The enumeration constants of a declaration, [next] being the value an
    enumerator without [=] receives at this position. *)
Fixpoint assign (next : Z) (es : list enumerator) : list (string * Z) :=
  match es with
  | [] => []
  | e :: es' =>
      let v := default next (e_init e) in
      (e_name e, v) :: assign (v + 1) es'
  end.

(** The first enumerator without [=] has value 0. *)
Definition values (es : list enumerator) : list (string * Z) := assign 0 es.

(** The value an identifier denotes in a table of enumeration constants. *)
Fixpoint value_of (tbl : list (string * Z)) (x : string) : option Z :=
  match tbl with
  | [] => None
  | (y, v) :: tbl' => if String.eqb x y then Some v else value_of tbl' x
  end.

(** No enumerator of the declaration carries an explicit [= constant]. *)
Definition implicit (es : list enumerator) : Prop :=
  Forall (λ e, e_init e = None) es.

End CEnum.

(** ** The declarations of the header *)

Module XTConstants.
Import CEnum.

(** [typedef enum { ... } XTRefType;] *)
Definition XTRefType_decl : list enumerator :=
  [ Enumerator "XTRefTypeBranch" None;
    Enumerator "XTRefTypeActiveBranch" None;
    Enumerator "XTRefTypeRemoteBranch" None;
    Enumerator "XTRefTypeTag" None;
    Enumerator "XTRefTypeRemote" None;
    Enumerator "XTRefTypeUnknown" None ].

(** [typedef enum { ... } XTSideBarRootItems;] *)
Definition XTSideBarRootItems_decl : list enumerator :=
  [ Enumerator "XTBranchesGroupIndex" None;
    Enumerator "XTRemotesGroupIndex" None;
    Enumerator "XTTagsGroupIndex" None;
    Enumerator "XTStashesGroupIndex" None ].

(** [typedef enum { XTErrorWriteLock = 1 } XTError;] *)
Definition XTError_decl : list enumerator :=
  [ Enumerator "XTErrorWriteLock" (Some 1) ].

(** Enumeration constants are ordinary identifiers of type [int] in one name
    space: the constants the whole header brings into scope. *)
Definition constants : list (string * Z) :=
  values XTRefType_decl ++ values XTSideBarRootItems_decl ++ values XTError_decl.

(** *** [XTRefType] *)

Inductive XTRefType : Set :=
  | XTRefTypeBranch
  | XTRefTypeActiveBranch
  | XTRefTypeRemoteBranch
  | XTRefTypeTag
  | XTRefTypeRemote
  | XTRefTypeUnknown.

Definition XTRefType_name (t : XTRefType) : string :=
  match t with
  | XTRefTypeBranch => "XTRefTypeBranch"
  | XTRefTypeActiveBranch => "XTRefTypeActiveBranch"
  | XTRefTypeRemoteBranch => "XTRefTypeRemoteBranch"
  | XTRefTypeTag => "XTRefTypeTag"
  | XTRefTypeRemote => "XTRefTypeRemote"
  | XTRefTypeUnknown => "XTRefTypeUnknown"
  end.

(** The integer the enumerator denotes, read off the declaration. *)
Definition XTRefType_ordinal (t : XTRefType) : Z :=
  default 0 (value_of (values XTRefType_decl) (XTRefType_name t)).

(** *** [XTSideBarRootItems] *)

Inductive XTSideBarRootItems : Set :=
  | XTBranchesGroupIndex
  | XTRemotesGroupIndex
  | XTTagsGroupIndex
  | XTStashesGroupIndex.

Definition XTSideBarRootItems_name (i : XTSideBarRootItems) : string :=
  match i with
  | XTBranchesGroupIndex => "XTBranchesGroupIndex"
  | XTRemotesGroupIndex => "XTRemotesGroupIndex"
  | XTTagsGroupIndex => "XTTagsGroupIndex"
  | XTStashesGroupIndex => "XTStashesGroupIndex"
  end.

Definition XTSideBarRootItems_ordinal (i : XTSideBarRootItems) : Z :=
  default 0 (value_of (values XTSideBarRootItems_decl) (XTSideBarRootItems_name i)).

(** *** [XTError] *)

Inductive XTError : Set :=
  | XTErrorWriteLock.

Definition XTError_name (e : XTError) : string :=
  match e with
  | XTErrorWriteLock => "XTErrorWriteLock"
  end.

Definition XTError_ordinal (e : XTError) : Z :=
  default 0 (value_of (values XTError_decl) (XTError_name e)).

(** *** The enumerations as closed, finite types, in declaration order *)

#[global] Instance XTRefType_eq_dec : EqDecision XTRefType.
Proof. solve_decision. Defined.

#[global] Instance XTSideBarRootItems_eq_dec : EqDecision XTSideBarRootItems.
Proof. solve_decision. Defined.

#[global] Instance XTError_eq_dec : EqDecision XTError.
Proof. solve_decision. Defined.

Definition XTRefType_all : list XTRefType :=
  [ XTRefTypeBranch; XTRefTypeActiveBranch; XTRefTypeRemoteBranch;
    XTRefTypeTag; XTRefTypeRemote; XTRefTypeUnknown ].

Definition XTSideBarRootItems_all : list XTSideBarRootItems :=
  [ XTBranchesGroupIndex; XTRemotesGroupIndex; XTTagsGroupIndex;
    XTStashesGroupIndex ].

Definition XTError_all : list XTError := [ XTErrorWriteLock ].

Lemma XTRefType_all_NoDup : NoDup XTRefType_all.
Proof. compute_done. Qed.

Lemma XTRefType_all_complete (t : XTRefType) : t ∈ XTRefType_all.
Proof. destruct t; compute_done. Qed.

Lemma XTSideBarRootItems_all_NoDup : NoDup XTSideBarRootItems_all.
Proof. compute_done. Qed.

Lemma XTSideBarRootItems_all_complete (i : XTSideBarRootItems) :
  i ∈ XTSideBarRootItems_all.
Proof. destruct i; compute_done. Qed.

Lemma XTError_all_NoDup : NoDup XTError_all.
Proof. compute_done. Qed.

Lemma XTError_all_complete (e : XTError) : e ∈ XTError_all.
Proof. destruct e; compute_done. Qed.

#[global] Instance XTRefType_finite : Finite XTRefType :=
  {| enum := XTRefType_all;
     NoDup_enum := XTRefType_all_NoDup;
     elem_of_enum := XTRefType_all_complete |}.

#[global] Instance XTSideBarRootItems_finite : Finite XTSideBarRootItems :=
  {| enum := XTSideBarRootItems_all;
     NoDup_enum := XTSideBarRootItems_all_NoDup;
     elem_of_enum := XTSideBarRootItems_all_complete |}.

#[global] Instance XTError_finite : Finite XTError :=
  {| enum := XTError_all;
     NoDup_enum := XTError_all_NoDup;
     elem_of_enum := XTError_all_complete |}.

(** A raw integer together with the enumeration it was taken from. *)
Inductive tagged : Set :=
  | OfRefType (t : XTRefType)
  | OfSideBarRootItems (i : XTSideBarRootItems)
  | OfError (e : XTError).

(** Forgetting the enumeration: what is left once the value is an [int]. *)
Definition raw (v : tagged) : Z :=
  match v with
  | OfRefType t => XTRefType_ordinal t
  | OfSideBarRootItems i => XTSideBarRootItems_ordinal i
  | OfError e => XTError_ordinal e
  end.

(** *** The error domains

    [extern NSString *XTErrorDomainXit, *XTErrorDomainGit;] declares the two
    globals by name; the header gives them no value. *)
Definition extern_decl : list string :=
  [ "XTErrorDomainXit"; "XTErrorDomainGit" ].

(** Modelled from the spec: the values of the two globals.  Their
    initialisers are in an implementation file that is not among the
    sources.  The spec describes them as two opaque constant tokens, one
    identifying errors raised by the application itself
    (ErrorDomainApplication) and one identifying errors surfaced from the
    underlying Git library (ErrorDomainUnderlyingLibrary). *)
Inductive ErrorDomain : Set :=
  | ErrorDomainApplication
  | ErrorDomainUnderlyingLibrary.

Definition XTErrorDomainXit : ErrorDomain := ErrorDomainApplication.
Definition XTErrorDomainGit : ErrorDomain := ErrorDomainUnderlyingLibrary.

(** The identifier under which the header declares a domain. *)
Definition ErrorDomain_name (d : ErrorDomain) : string :=
  match d with
  | ErrorDomainApplication => "XTErrorDomainXit"
  | ErrorDomainUnderlyingLibrary => "XTErrorDomainGit"
  end.

(** An error instance pairs a domain identifier with a numeric code. *)
Record NSError : Set := mkError {
  error_domain : ErrorDomain;
  error_code : Z
}.

(** Modelled from the spec: the error-construction collaborator, which is
    not among the sources.  Tagging an error as the application error [e]
    pairs the application domain with the integer of [e]. *)
Definition applicationError (e : XTError) : NSError :=
  {| error_domain := XTErrorDomainXit; error_code := XTError_ordinal e |}.

(** *** Reading the constants back *)

(** The identifier the header gives a value of one of its enumerations. *)
Definition tagged_name (v : tagged) : string :=
  match v with
  | OfRefType t => XTRefType_name t
  | OfSideBarRootItems i => XTSideBarRootItems_name i
  | OfError e => XTError_name e
  end.

(** Two values were taken from the same enumeration. *)
Definition same_enum (v w : tagged) : bool :=
  match v, w with
  | OfRefType _, OfRefType _ => true
  | OfSideBarRootItems _, OfSideBarRootItems _ => true
  | OfError _, OfError _ => true
  | _, _ => false
  end.

(** A [...GroupIndex] constant used as a subscript: [groups[index]]. *)
Definition group_at {A : Type} (groups : list A) (i : XTSideBarRootItems)
    : option A :=
  groups !! Z.to_nat (XTSideBarRootItems_ordinal i).

End XTConstants.

(** ** Values of an enumeration declaration *)

Section EnumValues.
Import CEnum.

Lemma assign_names (next : Z) (es : list enumerator) :
  (assign next es).*1 = e_name <$> es.
Proof.
  revert next. induction es as [|e es IH]; intros next; simpl; [done|].
  by rewrite IH.
Qed.

Lemma assign_length (next : Z) (es : list enumerator) :
  length (assign next es) = length es.
Proof.
  revert next. induction es as [|e es IH]; intros next; simpl; [done|].
  by rewrite IH.
Qed.

(** Without any [=], the values count up from [next]. *)
Lemma assign_implicit (next : Z) (es : list enumerator) :
  implicit es → (assign next es).*2 = seqZ next (Z.of_nat (length es)).
Proof.
  revert next. induction es as [|e es IH]; intros next Hes; [done|].
  apply Forall_cons in Hes as [He Hes].
  cbn [assign length]. rewrite He. cbn [default fmap list_fmap snd].
  rewrite Nat2Z.inj_succ, seqZ_cons by lia.
  rewrite Z.pred_succ. f_equal. by apply IH.
Qed.

(** An identifier that is not declared denotes nothing. *)
Lemma value_of_None (tbl : list (string * Z)) (x : string) :
  x ∉ tbl.*1 → value_of tbl x = None.
Proof.
  induction tbl as [|[y v] tbl IH]; intros Hx; simpl; [done|].
  rewrite fmap_cons, not_elem_of_cons in Hx. destruct Hx as [Hxy Hx].
  destruct (String.eqb_spec x y) as [->|_]; [done|]. by apply IH.
Qed.

(** The k-th enumerator of a declaration without [=] and without a repeated
    name denotes [next + k]. *)
Lemma value_of_assign_implicit (next : Z) (es : list enumerator)
    (k : nat) (e : enumerator) :
  implicit es → NoDup (e_name <$> es) → es !! k = Some e →
  value_of (assign next es) (e_name e) = Some (next + Z.of_nat k).
Proof.
  revert next k. induction es as [|e0 es IH]; intros next k Hes Hnd Hk; [done|].
  apply Forall_cons in Hes as [He0 Hes].
  rewrite fmap_cons in Hnd. apply NoDup_cons in Hnd as [Hfresh Hnd].
  cbn [assign]. rewrite He0. cbn [default value_of].
  destruct k as [|k]; simpl in Hk.
  - injection Hk as ->. rewrite String.eqb_refl. f_equal. lia.
  - destruct (String.eqb_spec (e_name e) (e_name e0)) as [Heq|_].
    + exfalso. apply Hfresh. rewrite <- Heq.
      apply list_elem_of_fmap. exists e. split; [done|].
      by eapply list_elem_of_lookup_2.
    + rewrite (IH (next + 1) k Hes Hnd Hk). f_equal. lia.
Qed.

Lemma value_of_values_implicit (es : list enumerator) (k : nat) (e : enumerator) :
  implicit es → NoDup (e_name <$> es) → es !! k = Some e →
  value_of (values es) (e_name e) = Some (Z.of_nat k).
Proof.
  intros Hes Hnd Hk. unfold values.
  by rewrite (value_of_assign_implicit 0 es k e Hes Hnd Hk).
Qed.

(** The rule on a declaration that mixes both forms, as in
    [enum { a, b = 5, c }]. *)
Example values_mixed :
  values [ Enumerator "a" None; Enumerator "b" (Some 5); Enumerator "c" None ]
  = [ ("a", 0); ("b", 5); ("c", 6) ].
Proof. reflexivity. Qed.

End EnumValues.

(** ** The header's enumerations *)

Import CEnum XTConstants.

(** *** The constants the header defines *)

Example constants_of_header :
  constants
  = [ ("XTRefTypeBranch", 0); ("XTRefTypeActiveBranch", 1);
      ("XTRefTypeRemoteBranch", 2); ("XTRefTypeTag", 3);
      ("XTRefTypeRemote", 4); ("XTRefTypeUnknown", 5);
      ("XTBranchesGroupIndex", 0); ("XTRemotesGroupIndex", 1);
      ("XTTagsGroupIndex", 2); ("XTStashesGroupIndex", 3);
      ("XTErrorWriteLock", 1) ].
Proof. reflexivity. Qed.

(** *** Constructors and enumerators correspond, in declaration order *)

Lemma XTRefType_decl_lookup (t : XTRefType) :
  XTRefType_decl !! encode_nat t = Some (Enumerator (XTRefType_name t) None).
Proof. by destruct t. Qed.

Lemma XTSideBarRootItems_decl_lookup (i : XTSideBarRootItems) :
  XTSideBarRootItems_decl !! encode_nat i
  = Some (Enumerator (XTSideBarRootItems_name i) None).
Proof. by destruct i. Qed.

Lemma XTRefType_decl_implicit : implicit XTRefType_decl.
Proof. unfold implicit, XTRefType_decl. by repeat constructor. Qed.

Lemma XTSideBarRootItems_decl_implicit : implicit XTSideBarRootItems_decl.
Proof. unfold implicit, XTSideBarRootItems_decl. by repeat constructor. Qed.

Lemma XTRefType_decl_NoDup : NoDup (e_name <$> XTRefType_decl).
Proof. compute_done. Qed.

Lemma XTSideBarRootItems_decl_NoDup : NoDup (e_name <$> XTSideBarRootItems_decl).
Proof. compute_done. Qed.

(** Every constructor names an enumerator of the declaration, so the default
    in the definition of the ordinal is never taken. *)
Lemma XTRefType_declared (t : XTRefType) :
  value_of (values XTRefType_decl) (XTRefType_name t)
  = Some (Z.of_nat (encode_nat t)).
Proof.
  apply (value_of_values_implicit _ _ (Enumerator (XTRefType_name t) None)).
  - exact XTRefType_decl_implicit.
  - exact XTRefType_decl_NoDup.
  - apply XTRefType_decl_lookup.
Qed.

Lemma XTSideBarRootItems_declared (i : XTSideBarRootItems) :
  value_of (values XTSideBarRootItems_decl) (XTSideBarRootItems_name i)
  = Some (Z.of_nat (encode_nat i)).
Proof.
  apply (value_of_values_implicit _ _
           (Enumerator (XTSideBarRootItems_name i) None)).
  - exact XTSideBarRootItems_decl_implicit.
  - exact XTSideBarRootItems_decl_NoDup.
  - apply XTSideBarRootItems_decl_lookup.
Qed.

Lemma XTError_declared (e : XTError) :
  value_of (values XTError_decl) (XTError_name e) = Some 1.
Proof. by destruct e. Qed.

(** The ordinal is the position in the declaration. *)
Lemma XTRefType_ordinal_position (t : XTRefType) :
  XTRefType_ordinal t = Z.of_nat (encode_nat t).
Proof. unfold XTRefType_ordinal. by rewrite XTRefType_declared. Qed.

Lemma XTSideBarRootItems_ordinal_position (i : XTSideBarRootItems) :
  XTSideBarRootItems_ordinal i = Z.of_nat (encode_nat i).
Proof.
  unfold XTSideBarRootItems_ordinal. by rewrite XTSideBarRootItems_declared.
Qed.

Lemma XTRefType_ordinal_inj : Inj (=) (=) XTRefType_ordinal.
Proof.
  intros a b Hab. rewrite !XTRefType_ordinal_position in Hab.
  apply Nat2Z.inj in Hab. by apply (inj encode_nat).
Qed.

Lemma XTSideBarRootItems_ordinal_inj : Inj (=) (=) XTSideBarRootItems_ordinal.
Proof.
  intros a b Hab. rewrite !XTSideBarRootItems_ordinal_position in Hab.
  apply Nat2Z.inj in Hab. by apply (inj encode_nat).
Qed.

Lemma XTRefType_ordinal_range (t : XTRefType) : 0 ≤ XTRefType_ordinal t < 6.
Proof.
  rewrite XTRefType_ordinal_position.
  pose proof (encode_lt_card t) as Hlt.
  change (card XTRefType) with 6%nat in Hlt. lia.
Qed.

Lemma XTSideBarRootItems_ordinal_range (i : XTSideBarRootItems) :
  0 ≤ XTSideBarRootItems_ordinal i < 4.
Proof.
  rewrite XTSideBarRootItems_ordinal_position.
  pose proof (encode_lt_card i) as Hlt.
  change (card XTSideBarRootItems) with 4%nat in Hlt. lia.
Qed.

(** *** The display order of the sidebar groups *)

Section SidebarOrder.

(** Root items are laid out by ascending index. *)
Let before (i j : XTSideBarRootItems) : Prop :=
  XTSideBarRootItems_ordinal i < XTSideBarRootItems_ordinal j.

Local Instance before_antisymm : AntiSymm (=) before.
Proof. unfold before. intros i j Hij Hji. lia. Qed.

Lemma before_sorted_NoDup (l : list XTSideBarRootItems) :
  StronglySorted before l → NoDup l.
Proof.
  induction 1 as [|i l _ IH Hall]; constructor; [|done].
  intros Hin. rewrite Forall_forall in Hall.
  specialize (Hall i Hin). unfold before in Hall. lia.
Qed.

Lemma XTSideBarRootItems_all_sorted :
  StronglySorted before XTSideBarRootItems_all.
Proof.
  unfold XTSideBarRootItems_all.
  repeat (constructor; [|by repeat constructor]). constructor.
Qed.

(** A listing of every group by ascending index is the declaration order. *)
Lemma sidebar_order_unique (l : list XTSideBarRootItems) :
  StronglySorted before l → (∀ i, i ∈ l) → l = XTSideBarRootItems_all.
Proof.
  intros Hsorted Hall.
  apply (StronglySorted_unique before); [done|exact XTSideBarRootItems_all_sorted|].
  apply NoDup_Permutation.
  - by apply before_sorted_NoDup.
  - exact XTSideBarRootItems_all_NoDup.
  - intros i. split; intros _; [apply XTSideBarRootItems_all_complete|apply Hall].
Qed.

End SidebarOrder.

(** ** Properties of the taxonomy *)

(** C1: [XTRefType] has exactly the six values Branch, ActiveBranch,
    RemoteBranch, Tag, Remote, Unknown, one per enumerator of the declaration;
    they are pairwise distinct, no two have the same ordinal, and Unknown
    differs from the other five. *)
Theorem XTRefType_six_distinct :
  XTRefType_name <$> enum XTRefType = e_name <$> XTRefType_decl
  ∧ card XTRefType = 6%nat
  ∧ (∀ t : XTRefType,
       t ∈ [ XTRefTypeBranch; XTRefTypeActiveBranch; XTRefTypeRemoteBranch;
             XTRefTypeTag; XTRefTypeRemote; XTRefTypeUnknown ])
  ∧ NoDup [ XTRefTypeBranch; XTRefTypeActiveBranch; XTRefTypeRemoteBranch;
            XTRefTypeTag; XTRefTypeRemote; XTRefTypeUnknown ]
  ∧ (∀ a b : XTRefType, a ≠ b → XTRefType_ordinal a ≠ XTRefType_ordinal b)
  ∧ NoDup (XTRefType_ordinal <$> enum XTRefType)
  ∧ Forall (λ t, t ≠ XTRefTypeUnknown
                 ∧ XTRefType_ordinal t ≠ XTRefType_ordinal XTRefTypeUnknown)
      [ XTRefTypeBranch; XTRefTypeActiveBranch; XTRefTypeRemoteBranch;
        XTRefTypeTag; XTRefTypeRemote ].
Proof.
  split; [done|]. split; [done|].
  split; [exact XTRefType_all_complete|].
  split; [exact XTRefType_all_NoDup|].
  split; [intros a b Hab Heq; by apply Hab, XTRefType_ordinal_inj|].
  split.
  - eapply @NoDup_fmap_2; [exact XTRefType_ordinal_inj|apply NoDup_enum].
  - repeat constructor; try discriminate;
      intros Heq; by apply XTRefType_ordinal_inj in Heq.
Qed.

Lemma XTRefType_six_distinct_witness :
  XTRefType_ordinal XTRefTypeBranch ≠ XTRefType_ordinal XTRefTypeUnknown.
Proof.
  apply (proj1 (proj2 (proj2 (proj2 (proj2 XTRefType_six_distinct))))).
  discriminate.
Defined.

(** C2: [XTSideBarRootItems] has exactly four pairwise distinct values, with
    Branches = 0, Remotes = 1, Tags = 2, Stashes = 3; listed by ascending
    index the groups are Branches, Remotes, Tags, Stashes and nothing else. *)
Theorem XTSideBarRootItems_order :
  XTSideBarRootItems_name <$> enum XTSideBarRootItems
    = e_name <$> XTSideBarRootItems_decl
  ∧ card XTSideBarRootItems = 4%nat
  ∧ (∀ i : XTSideBarRootItems,
       i ∈ [ XTBranchesGroupIndex; XTRemotesGroupIndex; XTTagsGroupIndex;
             XTStashesGroupIndex ])
  ∧ NoDup [ XTBranchesGroupIndex; XTRemotesGroupIndex; XTTagsGroupIndex;
            XTStashesGroupIndex ]
  ∧ XTSideBarRootItems_ordinal XTBranchesGroupIndex = 0
  ∧ XTSideBarRootItems_ordinal XTRemotesGroupIndex = 1
  ∧ XTSideBarRootItems_ordinal XTTagsGroupIndex = 2
  ∧ XTSideBarRootItems_ordinal XTStashesGroupIndex = 3
  ∧ (∀ a b : XTSideBarRootItems,
       XTSideBarRootItems_ordinal a = XTSideBarRootItems_ordinal b → a = b)
  ∧ (∀ l : list XTSideBarRootItems,
       StronglySorted
         (λ i j, XTSideBarRootItems_ordinal i < XTSideBarRootItems_ordinal j) l →
       (∀ i, i ∈ l) →
       l = [ XTBranchesGroupIndex; XTRemotesGroupIndex; XTTagsGroupIndex;
             XTStashesGroupIndex ]).
Proof.
  split; [done|]. split; [done|].
  split; [exact XTSideBarRootItems_all_complete|].
  split; [exact XTSideBarRootItems_all_NoDup|].
  do 4 (split; [by rewrite XTSideBarRootItems_ordinal_position|]).
  split; [exact XTSideBarRootItems_ordinal_inj|].
  exact sidebar_order_unique.
Qed.

Lemma XTSideBarRootItems_order_witness :
  [ XTBranchesGroupIndex; XTRemotesGroupIndex; XTTagsGroupIndex;
    XTStashesGroupIndex ]
  = [ XTBranchesGroupIndex; XTRemotesGroupIndex; XTTagsGroupIndex;
      XTStashesGroupIndex ].
Proof.
  apply (proj2 (proj2 (proj2 (proj2 (proj2 (proj2 (proj2 (proj2 (proj2
           XTSideBarRootItems_order)))))))));
    [|intros i; destruct i; compute_done].
  repeat (constructor; [|by repeat constructor]). constructor.
Defined.

(** C3: [XTErrorWriteLock] equals 1 and is the only value of [XTError]. *)
Theorem XTError_only_WriteLock :
  XTError_ordinal XTErrorWriteLock = 1
  ∧ value_of constants "XTErrorWriteLock" = Some 1
  ∧ (∀ e : XTError, e = XTErrorWriteLock)
  ∧ card XTError = 1%nat
  ∧ XTError_name <$> enum XTError = e_name <$> XTError_decl.
Proof.
  split; [done|]. split; [done|]. split; [by intros []|]. done.
Qed.

(** C5: no [XTError] value equals 0; the declaration defines no constant with
    value 0. *)
Theorem XTError_nonzero :
  (∀ e : XTError, XTError_ordinal e ≠ 0)
  ∧ 0 ∉ (values XTError_decl).*2.
Proof.
  split.
  - intros e. unfold XTError_ordinal. by rewrite XTError_declared.
  - compute_done.
Qed.

(** C8: the ordinals of [XTRefType] are 0 to 5 in declaration order, and
    every value other than Unknown has an ordinal strictly less than that of
    Unknown. *)
Theorem XTRefType_ordinals_consecutive :
  XTRefType_ordinal XTRefTypeBranch = 0
  ∧ XTRefType_ordinal XTRefTypeActiveBranch = 1
  ∧ XTRefType_ordinal XTRefTypeRemoteBranch = 2
  ∧ XTRefType_ordinal XTRefTypeTag = 3
  ∧ XTRefType_ordinal XTRefTypeRemote = 4
  ∧ XTRefType_ordinal XTRefTypeUnknown = 5
  ∧ XTRefType_ordinal <$> enum XTRefType = seqZ 0 6
  ∧ (∀ t : XTRefType,
       t ≠ XTRefTypeUnknown →
       XTRefType_ordinal t < XTRefType_ordinal XTRefTypeUnknown).
Proof.
  do 6 (split; [by rewrite XTRefType_ordinal_position|]).
  split.
  - change (enum XTRefType) with (fst <$> zip (enum XTRefType) XTRefType_decl).
    rewrite <- list_fmap_compose.
    transitivity ((values XTRefType_decl).*2); [done|].
    exact (assign_implicit 0 _ XTRefType_decl_implicit).
  - intros t Ht. rewrite !XTRefType_ordinal_position.
    destruct t; try reflexivity. by destruct Ht.
Qed.

Lemma XTRefType_ordinals_consecutive_witness :
  XTRefType_ordinal XTRefTypeRemote < XTRefType_ordinal XTRefTypeUnknown.
Proof.
  apply (proj2 (proj2 (proj2 (proj2 (proj2 (proj2 (proj2
           XTRefType_ordinals_consecutive))))))).
  discriminate.
Defined.

(** C9: ordinals are shared between the enumerations: [XTRefTypeBranch] and
    [XTBranchesGroupIndex] are both 0, so the raw integer does not tell the
    enumeration it came from. *)
Theorem ordinals_shared_across_enums :
  XTRefType_ordinal XTRefTypeBranch = 0
  ∧ XTSideBarRootItems_ordinal XTBranchesGroupIndex = 0
  ∧ (∃ (t : XTRefType) (i : XTSideBarRootItems),
       XTRefType_ordinal t = XTSideBarRootItems_ordinal i)
  ∧ value_of constants "XTRefTypeBranch"
    = value_of constants "XTBranchesGroupIndex"
  ∧ ¬ Inj (=) (=) raw.
Proof.
  split; [by rewrite XTRefType_ordinal_position|].
  split; [by rewrite XTSideBarRootItems_ordinal_position|].
  split.
  - exists XTRefTypeBranch, XTBranchesGroupIndex.
    by rewrite XTRefType_ordinal_position, XTSideBarRootItems_ordinal_position.
  - split; [done|]. intros Hinj.
    assert (OfRefType XTRefTypeBranch = OfSideBarRootItems XTBranchesGroupIndex)
      as Heq; [|discriminate Heq].
    apply Hinj. simpl.
    by rewrite XTRefType_ordinal_position, XTSideBarRootItems_ordinal_position.
Qed.

(** ** The error domains *)

(** C4: the two error-domain identifiers are distinct from each other. *)
Theorem XTErrorDomain_distinct :
  XTErrorDomainXit ≠ XTErrorDomainGit
  ∧ ErrorDomain_name <$> [ XTErrorDomainXit; XTErrorDomainGit ] = extern_decl
  ∧ NoDup extern_decl.
Proof.
  split; [discriminate|]. split; [done|]. compute_done.
Qed.

(** C7: tagging an error as the application write-lock error yields the pair
    (application domain, 1), and no request for an application error yields
    any other pair. *)
Theorem applicationError_WriteLock :
  applicationError XTErrorWriteLock
    = {| error_domain := XTErrorDomainXit; error_code := 1 |}
  ∧ (∀ e : XTError,
       error_domain (applicationError e) = XTErrorDomainXit
       ∧ error_code (applicationError e) = 1
       ∧ error_domain (applicationError e) ≠ XTErrorDomainGit).
Proof.
  split; [done|]. intros e.
  split; [done|]. split; [|discriminate].
  change (error_code (applicationError e)) with (XTError_ordinal e).
  unfold XTError_ordinal. by rewrite XTError_declared.
Qed.

(** ** The header as a whole *)

Lemma value_of_app (t1 t2 : list (string * Z)) (x : string) :
  value_of (t1 ++ t2) x
  = match value_of t1 x with Some v => Some v | None => value_of t2 x end.
Proof.
  induction t1 as [|[y v] t1 IH]; simpl; [done|].
  by destruct (String.eqb x y).
Qed.

Lemma value_of_Some_elem (tbl : list (string * Z)) (x : string) (v : Z) :
  value_of tbl x = Some v → (x, v) ∈ tbl.
Proof.
  induction tbl as [|[y w] tbl IH]; simpl; [done|].
  destruct (String.eqb_spec x y) as [->|_].
  - intros [= ->]. by left.
  - intros Hv. right. by apply IH.
Qed.

(** With no name declared twice, an identifier denotes the value of its
    one entry, wherever that entry stands in the table. *)
Lemma value_of_elem (tbl : list (string * Z)) (x : string) (v : Z) :
  NoDup tbl.*1 → (x, v) ∈ tbl → value_of tbl x = Some v.
Proof.
  induction tbl as [|[y w] tbl IH]; intros Hnd Hin; [by apply elem_of_nil in Hin|].
  rewrite fmap_cons in Hnd. apply NoDup_cons in Hnd as [Hfresh Hnd].
  simpl. apply elem_of_cons in Hin as [[= -> ->]|Hin].
  - by rewrite String.eqb_refl.
  - destruct (String.eqb_spec x y) as [->|_]; [|by apply IH].
    exfalso. apply Hfresh. simpl.
    apply list_elem_of_fmap. by exists (y, v).
Qed.

Lemma constants_NoDup : NoDup constants.*1.
Proof. compute_done. Qed.

Lemma tagged_in_constants (v : tagged) : (tagged_name v, raw v) ∈ constants.
Proof.
  unfold constants. rewrite !elem_of_app.
  destruct v as [t|i|e]; simpl.
  - left. apply value_of_Some_elem.
    unfold XTRefType_ordinal. by rewrite XTRefType_declared.
  - right; left. apply value_of_Some_elem.
    unfold XTSideBarRootItems_ordinal. by rewrite XTSideBarRootItems_declared.
  - right; right. apply value_of_Some_elem.
    unfold XTError_ordinal. by rewrite XTError_declared.
Qed.

(** X1: the header declares no identifier twice: its eleven enumerators and
    two globals are pairwise distinct names.  Hence, in the one name space
    they share, every enumerator denotes the value its own enumeration gives
    it (none is shadowed by an enumerator of another enumeration), every
    identifier with a value is one of the eleven, and the names of the two
    globals denote no enumeration constant. *)
Theorem header_identifiers_unambiguous :
  NoDup (constants.*1 ++ extern_decl)
  ∧ length constants = 11%nat
  ∧ (∀ v : tagged, value_of constants (tagged_name v) = Some (raw v))
  ∧ (∀ (x : string) (k : Z),
       value_of constants x = Some k ↔ ∃ v : tagged, tagged_name v = x ∧ raw v = k)
  ∧ Forall (λ x, value_of constants x = None) extern_decl.
Proof.
  assert (∀ v : tagged, value_of constants (tagged_name v) = Some (raw v)) as Hv.
  { intros v. apply value_of_elem;
      [exact constants_NoDup|apply tagged_in_constants]. }
  split; [compute_done|]. split; [done|]. split; [exact Hv|]. split.
  - intros x k. split.
    + intros Hx. apply value_of_Some_elem in Hx.
      assert (Forall (λ p, ∃ v : tagged, tagged_name v = p.1 ∧ raw v = p.2)
                constants) as Hall.
      { repeat constructor.
        - by exists (OfRefType XTRefTypeBranch).
        - by exists (OfRefType XTRefTypeActiveBranch).
        - by exists (OfRefType XTRefTypeRemoteBranch).
        - by exists (OfRefType XTRefTypeTag).
        - by exists (OfRefType XTRefTypeRemote).
        - by exists (OfRefType XTRefTypeUnknown).
        - by exists (OfSideBarRootItems XTBranchesGroupIndex).
        - by exists (OfSideBarRootItems XTRemotesGroupIndex).
        - by exists (OfSideBarRootItems XTTagsGroupIndex).
        - by exists (OfSideBarRootItems XTStashesGroupIndex).
        - by exists (OfError XTErrorWriteLock). }
      rewrite Forall_forall in Hall. exact (Hall (x, k) Hx).
    + intros (v & <- & <-). apply Hv.
  - repeat constructor.
Qed.

Lemma header_identifiers_unambiguous_witness :
  ∃ v : tagged, tagged_name v = "XTRemotesGroupIndex" ∧ raw v = 1.
Proof.
  apply (proj1 (proj2 (proj2 (proj2 header_identifiers_unambiguous)))).
  reflexivity.
Defined.

(** X2: within one enumeration the integer identifies the value: two
    different values of the same enumeration never have the same integer
    (across enumerations they may). *)
Theorem raw_distinct_within_enum (v w : tagged) :
  same_enum v w = true → v ≠ w → raw v ≠ raw w.
Proof.
  destruct v as [t|i|e], w as [t'|i'|e']; simpl; try discriminate;
    intros _ Hne Heq; apply Hne; f_equal.
  - by apply XTRefType_ordinal_inj.
  - by apply XTSideBarRootItems_ordinal_inj.
  - by destruct e, e'.
Qed.

Lemma raw_distinct_within_enum_witness :
  raw (OfSideBarRootItems XTTagsGroupIndex)
  ≠ raw (OfSideBarRootItems XTStashesGroupIndex).
Proof.
  apply (raw_distinct_within_enum (OfSideBarRootItems XTTagsGroupIndex)
           (OfSideBarRootItems XTStashesGroupIndex)).
  - reflexivity.
  - discriminate.
Defined.

(** X3: the four [...GroupIndex] constants are the subscripts of an array of
    four: all four are in range exactly when the array has at least four
    elements, and on an array of four, reading the slots of Branches,
    Remotes, Tags, Stashes in this order returns the array, every element
    once. *)
Theorem group_at_covers_array {A : Type} (groups : list A) :
  ((∀ i : XTSideBarRootItems, is_Some (group_at groups i))
     ↔ (4 ≤ length groups)%nat)
  ∧ (length groups = 4%nat →
     group_at groups <$> enum XTSideBarRootItems = Some <$> groups).
Proof.
  split; [split|].
  - intros Hall. specialize (Hall XTStashesGroupIndex).
    unfold group_at in Hall. apply lookup_lt_is_Some in Hall.
    rewrite XTSideBarRootItems_ordinal_position in Hall.
    change (encode_nat XTStashesGroupIndex) with 3%nat in Hall. lia.
  - intros Hlen i. unfold group_at. apply lookup_lt_is_Some.
    pose proof (XTSideBarRootItems_ordinal_range i). lia.
  - intros Hlen.
    destruct groups as [|a [|b [|c [|d [|? ?]]]]]; try discriminate Hlen.
    reflexivity.
Qed.

Lemma group_at_covers_array_witness :
  group_at [10; 20; 30; 40] <$> enum XTSideBarRootItems
  = Some <$> [10; 20; 30; 40].
Proof.
  apply (proj2 (group_at_covers_array [10; 20; 30; 40])). reflexivity.
Defined.
